(** * The chat session of [src/App.tsx]

    A shallow embedding of the [App] component: its [useState] cells, the
    handlers it passes to its children, the two effects that read the
    conversation, and the props that gate the handlers.  Handlers are
    written in a state monad over the component's world, one bind per
    statement of the source. *)

From Stdlib Require Import ZArith List String Ascii Bool Lia DecimalString.
From Stdlib Require Import DecimalPos DecimalZ.
From ExtLib Require Import Structures.Monad Structures.MonadState.
From ExtLib Require Import Data.Monads.StateMonad.
Import ListNotations.
Import MonadNotation.
Local Open Scope monad_scope.
Local Open Scope string_scope.
Local Open Scope list_scope.
Local Open Scope Z_scope.

(** ** JavaScript values the component relies on *)

(** Truthiness of a [string | null | undefined]: only a non-empty string
    passes [if (x)], [!!x] and [x && ...]. *)
Definition truthy (x : option string) : bool :=
  match x with
  | Some s => negb (s =? "")%string
  | None => false
  end.

(** [String.prototype.includes]. *)
Fixpoint includes (s sub : string) : bool :=
  String.prefix sub s ||
  match s with
  | EmptyString => false
  | String _ rest => includes rest sub
  end.

(** [Number.prototype.toString] on an integral number. *)
Definition toString (n : Z) : string :=
  NilZero.string_of_int (Z.to_int n).

(** The two clock reads a handler makes: [Date.now()] and [new Date()]. *)
Record Clock := mkClock { DateNow : Z; newDate : Z }.

(** ** Types of [./types] used by the component *)

(** Modelled from the spec: the [UserRole] union of [./types], which is
    not among the sources; the spec's data model lists its members.  The
    fourth state cell's type is [UserRole | 'General AI']. *)
Inductive Role :=
| Operations
| Maintenance
| ProjectManagement
| SalesMarketing
| Procurement
| ErectionCommissioning
| EngineeringDesign
| GeneralAI.

Definition Role_eqb (a b : Role) : bool :=
  match a, b with
  | Operations, Operations | Maintenance, Maintenance
  | ProjectManagement, ProjectManagement | SalesMarketing, SalesMarketing
  | Procurement, Procurement | ErectionCommissioning, ErectionCommissioning
  | EngineeringDesign, EngineeringDesign | GeneralAI, GeneralAI => true
  | _, _ => false
  end.

Inductive Author := user | assistant.

Definition Author_eqb (a b : Author) : bool :=
  match a, b with
  | user, user | assistant, assistant => true
  | _, _ => false
  end.

Module Message.
Record t := mk {
  id : string;
  role : Author;
  content : string;
  timestamp : Z
}.
End Message.

(** A JavaScript array of messages: an object identity and its elements.
    The component never writes into an array; it builds new ones, and the
    dependency list of an effect compares identities. *)
Record MsgArray := mkArray { ref : nat; elems : list Message.t }.

Record ChatState := mkChatState {
  messages : MsgArray;
  isLoading : bool;
  selectedRole : Role;
  uploadedFiles : list string
}.

Module ChatHistory.
Record t := mk {
  id : string;
  messages : MsgArray;
  role : Role
}.
End ChatHistory.

(** The argument of [saveChatHistory]. *)
Module Saved.
Record t := mk { messages : MsgArray; role : Role }.
End Saved.

(** A call of [generateResponse(content, role)] that has not settled. *)
Record Request := mkRequest { prompt : string; promptRole : Role }.

(** What a settled call hands to the code after [await]: the text, or
    the thrown value, an [Error] with its message or anything else. *)
Inductive Thrown := ErrorObject (message : string) | OtherValue.
Inductive Outcome := Fulfilled (text : string) | Rejected (err : Thrown).

(** The dependency list of the auto-save effect. *)
Record SaveDeps := mkSaveDeps {
  depMessages : nat;
  depAuthenticated : bool;
  depRole : Role;
  depSave : nat
}.

(** [Object.is] on each entry of two dependency lists. *)
Definition sameDeps (a b : SaveDeps) : bool :=
  Nat.eqb (depMessages a) (depMessages b) &&
  Bool.eqb (depAuthenticated a) (depAuthenticated b) &&
  Role_eqb (depRole a) (depRole b) &&
  Nat.eqb (depSave a) (depSave b).

(** ** The world of the component *)

Record World := mkWorld {
  (* useState cells *)
  showLogin : bool;
  showAuth : bool;
  chatState : ChatState;
  error : option string;
  sidebarOpen : bool;
  showLogoutConfirm : bool;
  (* useAuth and useChatHistory *)
  isAuthenticated : bool;
  currentChatId : option string;
  saveChatHistoryRef : nat;
  (* window *)
  innerWidth : Z;
  (* the runtime: next array identity, calls in flight, saves made, and
     the dependency lists remembered from the last commit *)
  nextRef : nat;
  inflight : list Request;
  saved : list Saved.t;
  authDeps : option bool;
  saveDeps : option SaveDeps
}.

Definition App := state World.

(** One setter per cell; every other field is carried over. *)
Definition setShowLogin (b : bool) : App unit :=
  modify (fun w => mkWorld b (showAuth w) (chatState w) (error w)
    (sidebarOpen w) (showLogoutConfirm w) (isAuthenticated w)
    (currentChatId w) (saveChatHistoryRef w) (innerWidth w) (nextRef w)
    (inflight w) (saved w) (authDeps w) (saveDeps w)) ;; ret tt.

Definition setShowAuth (b : bool) : App unit :=
  modify (fun w => mkWorld (showLogin w) b (chatState w) (error w)
    (sidebarOpen w) (showLogoutConfirm w) (isAuthenticated w)
    (currentChatId w) (saveChatHistoryRef w) (innerWidth w) (nextRef w)
    (inflight w) (saved w) (authDeps w) (saveDeps w)) ;; ret tt.

Definition putChatState (c : ChatState) : App unit :=
  modify (fun w => mkWorld (showLogin w) (showAuth w) c (error w)
    (sidebarOpen w) (showLogoutConfirm w) (isAuthenticated w)
    (currentChatId w) (saveChatHistoryRef w) (innerWidth w) (nextRef w)
    (inflight w) (saved w) (authDeps w) (saveDeps w)) ;; ret tt.

Definition setError (e : option string) : App unit :=
  modify (fun w => mkWorld (showLogin w) (showAuth w) (chatState w) e
    (sidebarOpen w) (showLogoutConfirm w) (isAuthenticated w)
    (currentChatId w) (saveChatHistoryRef w) (innerWidth w) (nextRef w)
    (inflight w) (saved w) (authDeps w) (saveDeps w)) ;; ret tt.

Definition setSidebarOpen (b : bool) : App unit :=
  modify (fun w => mkWorld (showLogin w) (showAuth w) (chatState w) (error w)
    b (showLogoutConfirm w) (isAuthenticated w)
    (currentChatId w) (saveChatHistoryRef w) (innerWidth w) (nextRef w)
    (inflight w) (saved w) (authDeps w) (saveDeps w)) ;; ret tt.

Definition setShowLogoutConfirm (b : bool) : App unit :=
  modify (fun w => mkWorld (showLogin w) (showAuth w) (chatState w) (error w)
    (sidebarOpen w) b (isAuthenticated w)
    (currentChatId w) (saveChatHistoryRef w) (innerWidth w) (nextRef w)
    (inflight w) (saved w) (authDeps w) (saveDeps w)) ;; ret tt.

Definition setIsAuthenticated (b : bool) : App unit :=
  modify (fun w => mkWorld (showLogin w) (showAuth w) (chatState w) (error w)
    (sidebarOpen w) (showLogoutConfirm w) b
    (currentChatId w) (saveChatHistoryRef w) (innerWidth w) (nextRef w)
    (inflight w) (saved w) (authDeps w) (saveDeps w)) ;; ret tt.

Definition setCurrentChatId (i : option string) : App unit :=
  modify (fun w => mkWorld (showLogin w) (showAuth w) (chatState w) (error w)
    (sidebarOpen w) (showLogoutConfirm w) (isAuthenticated w)
    i (saveChatHistoryRef w) (innerWidth w) (nextRef w)
    (inflight w) (saved w) (authDeps w) (saveDeps w)) ;; ret tt.

Definition setSaveChatHistoryRef (n : nat) : App unit :=
  modify (fun w => mkWorld (showLogin w) (showAuth w) (chatState w) (error w)
    (sidebarOpen w) (showLogoutConfirm w) (isAuthenticated w)
    (currentChatId w) n (innerWidth w) (nextRef w)
    (inflight w) (saved w) (authDeps w) (saveDeps w)) ;; ret tt.

Definition setInnerWidth (z : Z) : App unit :=
  modify (fun w => mkWorld (showLogin w) (showAuth w) (chatState w) (error w)
    (sidebarOpen w) (showLogoutConfirm w) (isAuthenticated w)
    (currentChatId w) (saveChatHistoryRef w) z (nextRef w)
    (inflight w) (saved w) (authDeps w) (saveDeps w)) ;; ret tt.

Definition setNextRef (n : nat) : App unit :=
  modify (fun w => mkWorld (showLogin w) (showAuth w) (chatState w) (error w)
    (sidebarOpen w) (showLogoutConfirm w) (isAuthenticated w)
    (currentChatId w) (saveChatHistoryRef w) (innerWidth w) n
    (inflight w) (saved w) (authDeps w) (saveDeps w)) ;; ret tt.

Definition setInflight (l : list Request) : App unit :=
  modify (fun w => mkWorld (showLogin w) (showAuth w) (chatState w) (error w)
    (sidebarOpen w) (showLogoutConfirm w) (isAuthenticated w)
    (currentChatId w) (saveChatHistoryRef w) (innerWidth w) (nextRef w)
    l (saved w) (authDeps w) (saveDeps w)) ;; ret tt.

Definition setSaved (l : list Saved.t) : App unit :=
  modify (fun w => mkWorld (showLogin w) (showAuth w) (chatState w) (error w)
    (sidebarOpen w) (showLogoutConfirm w) (isAuthenticated w)
    (currentChatId w) (saveChatHistoryRef w) (innerWidth w) (nextRef w)
    (inflight w) l (authDeps w) (saveDeps w)) ;; ret tt.

Definition setAuthDeps (d : option bool) : App unit :=
  modify (fun w => mkWorld (showLogin w) (showAuth w) (chatState w) (error w)
    (sidebarOpen w) (showLogoutConfirm w) (isAuthenticated w)
    (currentChatId w) (saveChatHistoryRef w) (innerWidth w) (nextRef w)
    (inflight w) (saved w) d (saveDeps w)) ;; ret tt.

Definition setSaveDeps (d : option SaveDeps) : App unit :=
  modify (fun w => mkWorld (showLogin w) (showAuth w) (chatState w) (error w)
    (sidebarOpen w) (showLogoutConfirm w) (isAuthenticated w)
    (currentChatId w) (saveChatHistoryRef w) (innerWidth w) (nextRef w)
    (inflight w) (saved w) (authDeps w) d) ;; ret tt.

(** [setChatState(prev => ...)]: the updater may build arrays, so it runs
    in the monad. *)
Definition setChatState (f : ChatState -> App ChatState) : App unit :=
  w <- get ;;
  c <- f (chatState w) ;;
  putChatState c.

(** An array literal: a new object with the given elements. *)
Definition newArray (l : list Message.t) : App MsgArray :=
  w <- get ;;
  setNextRef (S (nextRef w)) ;;
  ret (mkArray (nextRef w) l).

Definition when (b : bool) (c : App unit) : App unit :=
  if b then c else ret tt.

Definition exec {A} (c : App A) (w : World) : World := snd (runState c w).

(** ** Collaborators *)

(** Modelled from the spec: [logout] of the auth context, which is not
    among the sources; the spec has the session destroyed on logout. *)
Definition logout : App unit := setIsAuthenticated false.

(** [generateResponse(content, role)] up to its [await]: the call is in
    flight until the provider settles it. *)
Definition generateResponse (content : string) (r : Role) : App unit :=
  w <- get ;;
  setInflight (inflight w ++ [mkRequest content r]).

(** [saveChatHistory(payload)] as the component sees it: the call. *)
Definition saveChatHistory (p : Saved.t) : App unit :=
  w <- get ;;
  setSaved (saved w ++ [p]).

(** ** Handlers of [App] *)

Definition handleLogin : App unit :=
  setShowLogin false ;;
  setShowAuth true.

Definition handleGuestAccess : App unit :=
  setShowLogin false ;;
  setShowAuth false.

Definition handleAuthComplete : App unit :=
  setShowAuth false.

Definition closeSidebarOnMobile : App unit :=
  w <- get ;;
  when (innerWidth w <? 768) (setSidebarOpen false).

Definition handleLogout : App unit :=
  logout ;;
  a <- newArray [] ;;
  putChatState (mkChatState a false Operations []) ;;
  setCurrentChatId None ;;
  setShowLogoutConfirm false ;;
  setShowLogin true ;;
  setSidebarOpen false.

Definition userMessage (content : string) (clk : Clock) : Message.t :=
  Message.mk (toString (DateNow clk)) user content (newDate clk).

Definition assistantMessage (aiResponse : string) (clk : Clock) : Message.t :=
  Message.mk (toString (DateNow clk + 1)) assistant aiResponse (newDate clk).

(** [handleSendMessage] from its entry to the [await].  The closure
    reads [error] and [chatState.selectedRole] of the render that made
    it; an event reaches the handler of the current render, so these
    are the cells of the world it starts in. *)
Definition handleSendMessage (content : string) (clk : Clock) : App unit :=
  w <- get ;;
  if truthy (error w) then ret tt
  else
    setChatState (fun prev =>
      a <- newArray (elems (messages prev) ++ [userMessage content clk]) ;;
      ret (mkChatState a true (selectedRole prev) (uploadedFiles prev))) ;;
    closeSidebarOnMobile ;;
    generateResponse content (selectedRole (chatState w)).

(** The message shown for a thrown value:
    [err instanceof Error ? err.message : '...']. *)
Definition errorText (err : Thrown) : string :=
  match err with
  | ErrorObject m => m
  | OtherValue => "An unexpected error occurred"
  end.

(** [handleSendMessage] after the [await]: the rest of the [try] block
    or the [catch] block. *)
Definition handleSendMessage_settled (o : Outcome) (clk : Clock) : App unit :=
  match o with
  | Fulfilled aiResponse =>
      setChatState (fun prev =>
        a <- newArray (elems (messages prev) ++ [assistantMessage aiResponse clk]) ;;
        ret (mkChatState a false (selectedRole prev) (uploadedFiles prev)))
  | Rejected err =>
      setChatState (fun prev =>
        ret (mkChatState (messages prev) false (selectedRole prev) (uploadedFiles prev))) ;;
      setError (Some (errorText err))
  end.

Definition handleRoleChange (r : Role) : App unit :=
  setChatState (fun prev =>
    ret (mkChatState (messages prev) (isLoading prev) r (uploadedFiles prev))) ;;
  closeSidebarOnMobile.

Definition handleLoadChat (history : ChatHistory.t) : App unit :=
  setChatState (fun prev =>
    ret (mkChatState (ChatHistory.messages history) false
           (ChatHistory.role history) (uploadedFiles prev))) ;;
  setCurrentChatId (Some (ChatHistory.id history)) ;;
  closeSidebarOnMobile.

Definition handleNewChat : App unit :=
  setChatState (fun prev =>
    a <- newArray [] ;;
    ret (mkChatState a false (selectedRole prev) (uploadedFiles prev))) ;;
  setCurrentChatId None ;;
  closeSidebarOnMobile.

Definition clearError : App unit := setError None.

Definition handleResize : App unit :=
  w <- get ;;
  when ((innerWidth w <? 768) && sidebarOpen w) (setSidebarOpen false).

(** The window's [resize] listener, after the window took its new width. *)
Definition onResize (width : Z) : App unit :=
  setInnerWidth width ;;
  handleResize.

(** ** Effects *)

Definition CONFIG_ERROR : string :=
  "GEMINI_API_KEY is not configured. Please set VITE_GEMINI_API_KEY in your environment variables.".

(** The mount-only effect on [import.meta.env.VITE_GEMINI_API_KEY]. *)
Definition apiKeyEffect (key : option string) : App unit :=
  when (negb (truthy key)) (setError (Some CONFIG_ERROR)).

(** The effect on [[isAuthenticated]]. *)
Definition authEffectBody : App unit :=
  w <- get ;;
  when (isAuthenticated w) (setShowLogin false ;; setShowAuth false).

Definition authEffect : App unit :=
  w <- get ;;
  let changed :=
    match authDeps w with
    | Some b => negb (Bool.eqb b (isAuthenticated w))
    | None => true
    end in
  when changed (setAuthDeps (Some (isAuthenticated w)) ;; authEffectBody).

(** The auto-save effect: its body, its dependency list, and React's
    rule that the body runs on mount and when an entry changed. *)
Definition hasUserMessage (l : list Message.t) : bool :=
  existsb (fun m => Author_eqb (Message.role m) user) l.

Definition hasAIResponse (l : list Message.t) : bool :=
  existsb (fun m => Author_eqb (Message.role m) assistant) l.

Definition autoSaveBody : App unit :=
  w <- get ;;
  when (isAuthenticated w && (2 <=? List.length (elems (messages (chatState w))))%nat)
    (when (hasUserMessage (elems (messages (chatState w))) &&
           hasAIResponse (elems (messages (chatState w))))
       (saveChatHistory
          (Saved.mk (messages (chatState w)) (selectedRole (chatState w))))).

Definition currentSaveDeps (w : World) : SaveDeps :=
  mkSaveDeps (ref (messages (chatState w))) (isAuthenticated w)
    (selectedRole (chatState w)) (saveChatHistoryRef w).

Definition saveDepsChanged (w : World) : bool :=
  match saveDeps w with
  | Some d => negb (sameDeps d (currentSaveDeps w))
  | None => true
  end.

Definition autoSaveEffect : App unit :=
  w <- get ;;
  when (saveDepsChanged w)
    (setSaveDeps (Some (currentSaveDeps w)) ;; autoSaveBody).

(** What React does after a render: the effects, in source order. *)
Definition commit : App unit :=
  authEffect ;;
  autoSaveEffect.

(** The first render and its effects. *)
Definition initialWorld (auth : bool) (saveRef : nat) (width : Z) : World :=
  mkWorld true false (mkChatState (mkArray 0 []) false Operations []) None
    false false auth None saveRef width 1 [] [] None None.

Definition mount (key : option string) : App unit :=
  authEffect ;;
  apiKeyEffect key ;;
  autoSaveEffect.

Definition mounted (key : option string) (auth : bool) (saveRef : nat)
    (width : Z) : World :=
  exec (mount key) (initialWorld auth saveRef width).

(** ** What is rendered *)

Inductive Screen := LoginScreen | AuthScreen | ChatScreen.

Definition screen (w : World) : Screen :=
  if showLogin w && negb (isAuthenticated w) then LoginScreen
  else if showAuth w then AuthScreen
  else ChatScreen.

Definition onChat (w : World) : bool :=
  match screen w with ChatScreen => true | _ => false end.

(** The [onRetry] prop of [ErrorMessage]; [None] also when the banner is
    not rendered. *)
Definition onRetry (w : World) : option (App unit) :=
  match error w with
  | Some e =>
      if truthy (Some e)
      then if includes e "GEMINI_API_KEY" then None else Some clearError
      else None
  | None => None
  end.

(** The [isLoading] prop of [ChatInput]. *)
Definition chatInputIsLoading (w : World) : bool :=
  isLoading (chatState w) || truthy (error w).

(** ** Events *)

Inductive Event :=
| Login
| GuestAccess
| AuthComplete
| Send (content : string) (clk : Clock)
| Settle (i : nat) (o : Outcome) (clk : Clock)
| RoleChange (r : Role)
| LoadChat (history : ChatHistory.t)
| NewChat
| Retry
| AskLogout
| CancelLogout
| Logout
| Sidebar (open : bool)
| Resize (width : Z)
| AuthChanged (auth : bool)
| SaveChanged (saveRef : nat).

Fixpoint removeAt {A} (i : nat) (l : list A) : list A :=
  match i, l with
  | _, [] => []
  | O, _ :: t => t
  | S j, x :: t => x :: removeAt j t
  end.

(** The callback an event reaches in the current render, if any. *)
Definition handler (w : World) (ev : Event) : option (App unit) :=
  match ev with
  | Login =>
      match screen w with LoginScreen => Some handleLogin | _ => None end
  | GuestAccess =>
      match screen w with LoginScreen => Some handleGuestAccess | _ => None end
  | AuthComplete =>
      match screen w with AuthScreen => Some handleAuthComplete | _ => None end
  | Send content clk =>
      if onChat w then Some (handleSendMessage content clk) else None
  | Settle i o clk =>
      if (i <? List.length (inflight w))%nat
      then Some (setInflight (removeAt i (inflight w)) ;;
                 handleSendMessage_settled o clk)
      else None
  | RoleChange r =>
      if onChat w then Some (handleRoleChange r) else None
  | LoadChat history =>
      if onChat w && isAuthenticated w then Some (handleLoadChat history) else None
  | NewChat =>
      if onChat w && isAuthenticated w then Some handleNewChat else None
  | Retry =>
      if onChat w then onRetry w else None
  | AskLogout =>
      if onChat w && isAuthenticated w then Some (setShowLogoutConfirm true) else None
  | CancelLogout =>
      if onChat w && showLogoutConfirm w then Some (setShowLogoutConfirm false) else None
  | Logout =>
      if onChat w && showLogoutConfirm w then Some handleLogout else None
  | Sidebar open =>
      if onChat w then Some (setSidebarOpen open) else None
  | Resize width =>
      Some (onResize width)
  | AuthChanged auth =>
      Some (setIsAuthenticated auth)
  | SaveChanged saveRef =>
      Some (setSaveChatHistoryRef saveRef)
  end.

(** One event: its callback, then the render's effects. *)
Definition step (w : World) (ev : Event) : option World :=
  match handler w ev with
  | Some h => Some (exec (h ;; commit) w)
  | None => None
  end.

Fixpoint run (w : World) (evs : list Event) : option World :=
  match evs with
  | [] => Some w
  | ev :: rest =>
      match step w ev with
      | Some w' => run w' rest
      | None => None
      end
  end.

(** ** Sample sessions and predicates used in the statements *)

(** A handler that leaves the current error and the calls in flight as
    they were. *)
Definition keepsErrorAndCalls (c : App unit) : Prop :=
  forall w, error (exec c w) = error w /\ inflight (exec c w) = inflight w.

(** The configuration error is current and no call is in flight. *)
Definition blocked (w : World) : Prop :=
  error w = Some CONFIG_ERROR /\ inflight w = [].

(** Two instants, each with its [Date.now()] and its [new Date()]. *)
Definition t1 : Clock := mkClock 1700000000000 1700000000000.
Definition t2 : Clock := mkClock 1700000000900 1700000000901.

(** A guest who chose to continue without logging in. *)
Definition guestWorld : World :=
  exec handleGuestAccess (mounted (Some "key") false 0 1280).

(** A logged-in user on a fresh page. *)
Definition memberWorld : World := mounted (Some "key") true 0 1280.

(** The world after a list of events, when each of them was enabled. *)
Definition after (w : World) (evs : list Event) : World :=
  match run w evs with
  | Some w' => w'
  | None => w
  end.

(** The guest after a first send that has not settled. *)
Definition loadingWorld : World := after guestWorld [Send "first" t1].

(** The guest after a send that failed with a timeout. *)
Definition failedWorld : World :=
  after guestWorld
    [Send "first" t1; Settle 0 (Rejected (ErrorObject "network timeout")) t2].

(** The spec's empty or whitespace-only text: nothing but ASCII white
    space.  The handler has no such test; the predicate names the texts
    the statement is about. *)
Definition isWhiteSpace (c : ascii) : bool :=
  match nat_of_ascii c with
  | 9%nat | 10%nat | 11%nat | 12%nat | 13%nat | 32%nat => true
  | _ => false
  end.

Fixpoint blankText (s : string) : bool :=
  match s with
  | EmptyString => true
  | String c rest => isWhiteSpace c && blankText rest
  end.

(** The logged-in user's first exchange, as the array the state holds. *)
Definition firstExchange : MsgArray :=
  mkArray 2 [Message.mk "1700000000000" user "q" 1700000000000;
             Message.mk "1700000000901" assistant "r" 1700000000901].

(** The logged-in user after a send that failed with a timeout. *)
Definition memberFailedWorld : World :=
  after memberWorld
    [Send "first" t1; Settle 0 (Rejected (ErrorObject "network timeout")) t2].

(** A record of the history store. *)
Definition storedChat : ChatHistory.t :=
  ChatHistory.mk "chat-1" firstExchange Maintenance.

(** ** Predicates on events and traces used in the further properties *)

(** Events whose handler replaces the message array by an unrelated one. *)
Definition replacesConversation (ev : Event) : bool :=
  match ev with
  | NewChat | LoadChat _ | Logout => true
  | _ => false
  end.

(** Events whose handler writes the error cell: the [catch] block and
    the retry callback. *)
Definition writesError (ev : Event) : bool :=
  match ev with
  | Retry | Settle _ (Rejected _) _ => true
  | _ => false
  end.

(** A trace in which no send happens while the input is told it is
    loading, and the conversation is never replaced. *)
Fixpoint inputHonoured (w : World) (evs : list Event) : bool :=
  match evs with
  | [] => true
  | ev :: rest =>
      match ev with
      | Send _ _ => negb (chatInputIsLoading w)
      | _ => negb (replacesConversation ev)
      end &&
      match step w ev with
      | Some w' => inputHonoured w' rest
      | None => true
      end
  end.

(** The test of the auto-save effect on a payload. *)
Definition completeExchange (p : Saved.t) : bool :=
  (2 <=? List.length (elems (Saved.messages p)))%nat &&
  (hasUserMessage (elems (Saved.messages p)) &&
   hasAIResponse (elems (Saved.messages p))).

(** At most one call in flight, and the loading flag up while it is. *)
Definition singleFlight (w : World) : Prop :=
  (List.length (inflight w) <= 1)%nat /\
  (inflight w = [] \/ isLoading (chatState w) = true).

(** The effect on [[isAuthenticated]] has run for the current flag, and
    an authenticated session does not show the auth screen. *)
Definition authSettled (w : World) : Prop :=
  authDeps w = Some (isAuthenticated w) /\
  (isAuthenticated w = true -> showAuth w = false).

(** * Properties *)

(** ** Running handlers *)

Lemma exec_seq {A B} (c : App A) (k : App B) (w : World) :
  exec (c ;; k) w = exec k (exec c w).
Proof.
  unfold exec. cbn. destruct (runState c w). reflexivity.
Qed.

Ltac run_handler :=
  unfold exec; cbn;
  repeat first
    [ progress (unfold when, saveDepsChanged; cbn)
    | match goal with
      | |- context [if ?b then _ else _] => destruct b eqn:?; cbn
      | |- context [match ?x with Some _ => _ | None => _ end] =>
          destruct x eqn:?; cbn
      end ].

(** A send that meets a current error returns at once. *)
Lemma handleSendMessage_blocked w content clk :
  truthy (error w) = true -> exec (handleSendMessage content clk) w = w.
Proof.
  intros H. unfold exec, handleSendMessage. cbn. rewrite H. reflexivity.
Qed.

(** A send that meets no error: the world after the synchronous part. *)
Lemma handleSendMessage_open w content clk :
  truthy (error w) = false ->
  exec (handleSendMessage content clk) w =
  mkWorld (showLogin w) (showAuth w)
    (mkChatState
       (mkArray (nextRef w)
          (elems (messages (chatState w)) ++ [userMessage content clk]))
       true (selectedRole (chatState w)) (uploadedFiles (chatState w)))
    (error w)
    (if innerWidth w <? 768 then false else sidebarOpen w)
    (showLogoutConfirm w) (isAuthenticated w) (currentChatId w)
    (saveChatHistoryRef w) (innerWidth w) (S (nextRef w))
    (inflight w ++ [mkRequest content (selectedRole (chatState w))])
    (saved w) (authDeps w) (saveDeps w).
Proof.
  intros H. unfold exec, handleSendMessage. cbn. rewrite H. cbn.
  destruct (innerWidth w <? 768); reflexivity.
Qed.

(** ** Handlers that leave the error and the calls in flight alone *)

Ltac frame := intros w; destruct w; run_handler; split; reflexivity.

Lemma keeps_commit : keepsErrorAndCalls commit.
Proof. frame. Qed.

Lemma keeps_handleLogin : keepsErrorAndCalls handleLogin.
Proof. frame. Qed.

Lemma keeps_handleGuestAccess : keepsErrorAndCalls handleGuestAccess.
Proof. frame. Qed.

Lemma keeps_handleAuthComplete : keepsErrorAndCalls handleAuthComplete.
Proof. frame. Qed.

Lemma keeps_handleRoleChange r : keepsErrorAndCalls (handleRoleChange r).
Proof. frame. Qed.

Lemma keeps_handleLoadChat h : keepsErrorAndCalls (handleLoadChat h).
Proof. frame. Qed.

Lemma keeps_handleNewChat : keepsErrorAndCalls handleNewChat.
Proof. frame. Qed.

Lemma keeps_handleLogout : keepsErrorAndCalls handleLogout.
Proof. frame. Qed.

Lemma keeps_setShowLogoutConfirm b : keepsErrorAndCalls (setShowLogoutConfirm b).
Proof. frame. Qed.

Lemma keeps_setSidebarOpen b : keepsErrorAndCalls (setSidebarOpen b).
Proof. frame. Qed.

Lemma keeps_onResize z : keepsErrorAndCalls (onResize z).
Proof. frame. Qed.

Lemma keeps_setIsAuthenticated b : keepsErrorAndCalls (setIsAuthenticated b).
Proof. frame. Qed.

Lemma keeps_setSaveChatHistoryRef n : keepsErrorAndCalls (setSaveChatHistoryRef n).
Proof. frame. Qed.

Create HintDb frames.
#[local] Hint Resolve keeps_commit keeps_handleLogin keeps_handleGuestAccess
  keeps_handleAuthComplete keeps_handleRoleChange keeps_handleLoadChat
  keeps_handleNewChat keeps_handleLogout keeps_setShowLogoutConfirm
  keeps_setSidebarOpen keeps_onResize keeps_setIsAuthenticated
  keeps_setSaveChatHistoryRef : frames.

(** ** Sending *)




(** C2, as stated, fails: the guest's first call is still in flight, and
    a second send appends a second user message and issues a second
    call. *)
Lemma send_while_loading_counterexample :
  isLoading (chatState loadingWorld) = true /\
  error loadingWorld = None /\
  List.length (elems (messages (chatState loadingWorld))) = 1%nat /\
  List.length (inflight loadingWorld) = 1%nat /\
  List.length (elems (messages (chatState
    (exec (handleSendMessage "second" t2) loadingWorld)))) = 2%nat /\
  inflight (exec (handleSendMessage "second" t2) loadingWorld) =
    [mkRequest "first" Operations; mkRequest "second" Operations].
Proof. repeat apply conj; vm_compute; reflexivity. Qed.

(** C2, amended. While the loading flag is true the input component is
    told so, but the handler does not read the flag: it returns at once
    exactly when an error is current, and otherwise it appends the user
    message, keeps the flag true, keeps role and error, and issues one
    more call. *)
Theorem send_while_loading w content clk :
  isLoading (chatState w) = true ->
  let w' := exec (handleSendMessage content clk) w in
  chatInputIsLoading w = true /\
  (truthy (error w) = true -> w' = w) /\
  (truthy (error w) = false ->
     elems (messages (chatState w')) =
       elems (messages (chatState w)) ++ [userMessage content clk] /\
     isLoading (chatState w') = true /\
     selectedRole (chatState w') = selectedRole (chatState w) /\
     error w' = error w /\
     inflight w' =
       inflight w ++ [mkRequest content (selectedRole (chatState w))]).
Proof.
  intros Hl w'. subst w'. split; [|split].
  - unfold chatInputIsLoading. rewrite Hl. reflexivity.
  - apply handleSendMessage_blocked.
  - intros He. rewrite (handleSendMessage_open _ _ _ He). cbn. auto.
Qed.

Lemma send_while_loading_witness :
  chatInputIsLoading loadingWorld = true.
Proof.
  exact (proj1 (send_while_loading loadingWorld "second" t2 eq_refl)).
Defined.

(** C3, as stated, fails: after the timeout the error is current, and
    the next send returns at once: nothing is appended and no call is
    issued. *)
Lemma resend_after_failure_counterexample :
  error failedWorld = Some "network timeout" /\
  isLoading (chatState failedWorld) = false /\
  exec (handleSendMessage "first" t2) failedWorld = failedWorld /\
  inflight (exec (handleSendMessage "first" t2) failedWorld) = [].
Proof. repeat apply conj; vm_compute; reflexivity. Qed.

(** C3, amended. A send whose call is rejected records the thrown
    value's message as the current error, sets the loading flag false
    and leaves the user message appended with no assistant message
    after it.  While that error is current a further send returns at
    once; for a message that does not name the API key the retry
    affordance is [clearError], and after it a send goes out again. *)
Theorem failed_send_is_recorded w content clk err clk' :
  truthy (error w) = false ->
  let w' := exec (handleSendMessage_settled (Rejected err) clk')
              (exec (handleSendMessage content clk) w) in
  error w' = Some (errorText err) /\
  isLoading (chatState w') = false /\
  elems (messages (chatState w')) =
    elems (messages (chatState w)) ++ [userMessage content clk] /\
  (truthy (Some (errorText err)) = true ->
     forall c k, exec (handleSendMessage c k) w' = w') /\
  (truthy (Some (errorText err)) = true ->
     includes (errorText err) "GEMINI_API_KEY" = false ->
     onRetry w' = Some clearError) /\
  (forall c k,
     let w'' := exec (handleSendMessage c k) (exec clearError w') in
     elems (messages (chatState w'')) =
       elems (messages (chatState w')) ++ [userMessage c k] /\
     isLoading (chatState w'') = true /\
     inflight w'' =
       inflight w' ++ [mkRequest c (selectedRole (chatState w'))]).
Proof.
  intros He w'.
  assert (Herr : error w' = Some (errorText err)) by reflexivity.
  assert (Hchat : chatState w' =
            mkChatState
              (mkArray (nextRef w)
                 (elems (messages (chatState w)) ++ [userMessage content clk]))
              false (selectedRole (chatState w)) (uploadedFiles (chatState w))).
  { subst w'. rewrite (handleSendMessage_open _ _ _ He). reflexivity. }
  split; [exact Herr|].
  split; [rewrite Hchat; reflexivity|].
  split; [rewrite Hchat; reflexivity|].
  split; [|split].
  - intros Ht c k. apply handleSendMessage_blocked. rewrite Herr. exact Ht.
  - intros Ht Hi. unfold onRetry. rewrite Herr, Ht, Hi. reflexivity.
  - intros c k w''. subst w''.
    rewrite handleSendMessage_open by reflexivity.
    cbn. auto.
Qed.

Lemma failed_send_witness :
  let w' := exec (handleSendMessage_settled
                    (Rejected (ErrorObject "network timeout")) t2)
              (exec (handleSendMessage "first" t1) guestWorld) in
  error w' = Some "network timeout" /\ onRetry w' = Some clearError.
Proof.
  pose proof (failed_send_is_recorded guestWorld "first" t1
                (ErrorObject "network timeout") t2 eq_refl) as H.
  split.
  - exact (proj1 H).
  - exact (proj1 (proj2 (proj2 (proj2 (proj2 H)))) eq_refl eq_refl).
Defined.

(** C4, as stated, fails: the guest sends three spaces, and then the
    empty text; each is appended as a user message, the loading flag
    goes up and a call with that text is issued. *)
Lemma blank_send_counterexample :
  blankText "   " = true /\ blankText "" = true /\
  error guestWorld = None /\
  elems (messages (chatState guestWorld)) = [] /\
  elems (messages (chatState (exec (handleSendMessage "   " t1) guestWorld))) =
    [Message.mk "1700000000000" user "   " 1700000000000] /\
  isLoading (chatState (exec (handleSendMessage "   " t1) guestWorld)) = true /\
  inflight (exec (handleSendMessage "   " t1) guestWorld) =
    [mkRequest "   " Operations] /\
  elems (messages (chatState (exec (handleSendMessage "" t1) guestWorld))) =
    [Message.mk "1700000000000" user "" 1700000000000].
Proof. repeat apply conj; vm_compute; reflexivity. Qed.

(** C4, amended. The handler treats an empty or whitespace-only text as
    any other: with an error current the send changes nothing, and with
    none it appends a user message carrying that text, raises the
    loading flag and issues the call, role and error unchanged. *)
Theorem blank_send_is_sent w content clk :
  blankText content = true ->
  let w' := exec (handleSendMessage content clk) w in
  (truthy (error w) = true -> w' = w) /\
  (truthy (error w) = false ->
     elems (messages (chatState w')) =
       elems (messages (chatState w)) ++
         [Message.mk (toString (DateNow clk)) user content (newDate clk)] /\
     isLoading (chatState w') = true /\
     selectedRole (chatState w') = selectedRole (chatState w) /\
     error w' = error w /\
     inflight w' =
       inflight w ++ [mkRequest content (selectedRole (chatState w))]).
Proof.
  intros _ w'. subst w'. split.
  - apply handleSendMessage_blocked.
  - intros He. rewrite (handleSendMessage_open _ _ _ He). cbn. auto.
Qed.

Lemma blank_send_witness :
  inflight (exec (handleSendMessage "   " t1) guestWorld) =
    [mkRequest "   " Operations].
Proof.
  exact (proj2 (proj2 (proj2 (proj2
    (proj2 (blank_send_is_sent guestWorld "   " t1 eq_refl) eq_refl))))).
Defined.

(** ** A session without the API key *)

Lemma mounted_blocked key auth saveRef width :
  truthy key = false -> blocked (mounted key auth saveRef width).
Proof.
  intros Hk. unfold mounted, mount, apiKeyEffect.
  rewrite Hk. destruct auth; split; reflexivity.
Qed.

Lemma blocked_onRetry w : blocked w -> onRetry w = None.
Proof.
  intros [He _]. unfold onRetry. rewrite He. reflexivity.
Qed.

Lemma blocked_handler w ev h :
  blocked w -> handler w ev = Some h ->
  error (exec h w) = error w /\ inflight (exec h w) = inflight w.
Proof.
  intros Hb Hh. pose proof Hb as [He Hi].
  destruct ev; unfold handler, onChat in Hh;
    destruct (screen w);
    destruct (isAuthenticated w); destruct (showLogoutConfirm w);
    cbn [andb] in Hh; try discriminate;
    try (injection Hh as <-;
         match goal with
         | |- error (exec ?c ?v) = _ /\ _ =>
             apply (fun K : keepsErrorAndCalls c => K v)
         end; auto with frames; fail);
    try (rewrite (blocked_onRetry w Hb) in Hh; discriminate);
    try (rewrite Hi in Hh; cbn [List.length Nat.ltb Nat.leb] in Hh;
         discriminate).
  all: injection Hh as <-.
  all: rewrite handleSendMessage_blocked; [auto|rewrite He; reflexivity].
Qed.

Lemma blocked_step w ev w' : blocked w -> step w ev = Some w' -> blocked w'.
Proof.
  unfold step. intros Hb Hs.
  destruct (handler w ev) as [h|] eqn:Hh; [|discriminate].
  replace w' with (exec (h ;; commit) w) by (injection Hs; auto).
  rewrite exec_seq.
  destruct (keeps_commit (exec h w)) as [He Hi].
  destruct (blocked_handler w ev h Hb Hh) as [He' Hi'].
  destruct Hb as [Hbe Hbi].
  split; congruence.
Qed.

Lemma blocked_run evs : forall w w',
  blocked w -> run w evs = Some w' -> blocked w'.
Proof.
  induction evs as [|ev rest IH]; intros w w' Hb Hr; cbn in Hr.
  - injection Hr as <-. exact Hb.
  - destruct (step w ev) as [w1|] eqn:Hs; [|discriminate].
    eapply IH; [|exact Hr]. eapply blocked_step; eassumption.
Qed.

(** C5. When the API key is absent at startup the configuration error
    is set by the first commit, and in every world the session can reach
    from there it is still the current error, every send changes
    nothing, the error banner offers no retry, and no call is in
    flight. *)
Theorem missing_key_blocks_session key auth saveRef width evs w :
  truthy key = false ->
  run (mounted key auth saveRef width) evs = Some w ->
  error (mounted key auth saveRef width) = Some CONFIG_ERROR /\
  error w = Some CONFIG_ERROR /\
  (forall content clk, exec (handleSendMessage content clk) w = w) /\
  onRetry w = None /\
  inflight w = [].
Proof.
  intros Hk Hr.
  pose proof (mounted_blocked key auth saveRef width Hk) as Hb0.
  pose proof (blocked_run evs _ _ Hb0 Hr) as Hb.
  split; [apply Hb0|]. split; [apply Hb|]. split; [|split].
  - intros content clk. apply handleSendMessage_blocked.
    destruct Hb as [-> _]. reflexivity.
  - apply blocked_onRetry. exact Hb.
  - apply Hb.
Qed.

Lemma missing_key_witness :
  exists w,
    run (mounted None false 0 1280)
      [GuestAccess; Send "hello" t1; RoleChange Maintenance; Sidebar true;
       Resize 600] = Some w /\
    error w = Some CONFIG_ERROR /\
    elems (messages (chatState w)) = [].
Proof.
  eexists. split; [vm_compute; reflexivity|].
  split.
  - refine (proj1 (proj2 (missing_key_blocks_session None false 0%nat 1280
      [GuestAccess; Send "hello" t1; RoleChange Maintenance; Sidebar true;
       Resize 600] _ eq_refl _))).
    vm_compute; reflexivity.
  - reflexivity.
Defined.

(** ** Auto-save *)

Lemma sameDeps_refl d : sameDeps d d = true.
Proof.
  unfold sameDeps.
  rewrite !Nat.eqb_refl, eqb_reflx. destruct (depRole d); reflexivity.
Qed.

Ltac quiet_cbn :=
  unfold currentSaveDeps;
  cbn -[Nat.leb hasUserMessage hasAIResponse sameDeps].

Ltac split_policy :=
  repeat first
    [ rewrite sameDeps_refl; quiet_cbn
    | match goal with
      | H : sameDeps _ _ = _ |- _ => rewrite H; quiet_cbn
      | |- context [sameDeps ?a ?b] => destruct (sameDeps a b) eqn:?; quiet_cbn
      | |- context [(2 <=? ?n)%nat] => destruct (2 <=? n)%nat; quiet_cbn
      | |- context [hasUserMessage ?l] => destruct (hasUserMessage l); quiet_cbn
      | |- context [hasAIResponse ?l] => destruct (hasAIResponse l); quiet_cbn
      end ].

(** C6, as stated, fails: the logged-in user completes one exchange,
    switches the role and switches back.  Three saves are made, and the
    first and the third carry the same messages and the same role. *)
Lemma autosave_repeats_snapshot_counterexample :
  option_map saved
    (run memberWorld
       [Send "q" t1; Settle 0 (Fulfilled "r") t2;
        RoleChange Maintenance; RoleChange Operations]) =
  Some [Saved.mk firstExchange Operations;
        Saved.mk firstExchange Maintenance;
        Saved.mk firstExchange Operations].
Proof. vm_compute. reflexivity. Qed.

(** C6, amended. After a render the effect makes a save exactly when an
    entry of its dependency list changed (the message array, the
    authentication flag, the role or the save function) and the session
    is authenticated with at least two messages, one from the user and
    one from the assistant; the save carries the whole message array and
    the selected role.  The same render makes no second save, and none
    is made without authentication. *)
Theorem autosave_fires_on_change w :
  let msgs := elems (messages (chatState w)) in
  let due := isAuthenticated w && (2 <=? List.length msgs)%nat &&
             (hasUserMessage msgs && hasAIResponse msgs) in
  saved (exec commit w) =
    saved w ++
      (if saveDepsChanged w && due
       then [Saved.mk (messages (chatState w)) (selectedRole (chatState w))]
       else []) /\
  saveDepsChanged (exec commit w) = false /\
  saved (exec commit (exec commit w)) = saved (exec commit w) /\
  (isAuthenticated w = false -> saved (exec commit w) = saved w).
Proof.
  intros msgs due. subst msgs due.
  assert (Hsaved : forall v,
    saved (exec commit v) =
      saved v ++
        (if saveDepsChanged v &&
            (isAuthenticated v &&
             (2 <=? List.length (elems (messages (chatState v))))%nat &&
             (hasUserMessage (elems (messages (chatState v))) &&
              hasAIResponse (elems (messages (chatState v)))))
         then [Saved.mk (messages (chatState v)) (selectedRole (chatState v))]
         else [])).
  { intros v. destruct v as [sl sa cs er so lc au ci sr iw nr fl sv ad sd].
    unfold exec, commit, authEffect, authEffectBody, autoSaveEffect,
      autoSaveBody, saveDepsChanged, when.
    cbn -[Nat.leb hasUserMessage hasAIResponse sameDeps].
    destruct ad as [[|]|], au, sd as [d|]; quiet_cbn; split_policy;
      rewrite ?app_nil_r; reflexivity. }
  assert (Hquiet : forall v, saveDepsChanged (exec commit v) = false).
  { intros v. destruct v as [sl sa cs er so lc au ci sr iw nr fl sv ad sd].
    unfold exec, commit, authEffect, authEffectBody, autoSaveEffect,
      autoSaveBody, saveDepsChanged, when.
    cbn -[Nat.leb hasUserMessage hasAIResponse sameDeps].
    destruct ad as [[|]|], au, sd as [d|]; quiet_cbn; split_policy;
      reflexivity. }
  split; [apply Hsaved|]. split; [apply Hquiet|]. split.
  - rewrite (Hsaved (exec commit w)), Hquiet. cbn. apply app_nil_r.
  - intros Ha. rewrite Hsaved, Ha, andb_false_r. apply app_nil_r.
Qed.

Lemma autosave_witness :
  saved (exec commit guestWorld) = saved guestWorld.
Proof.
  exact (proj2 (proj2 (proj2 (autosave_fires_on_change guestWorld))) eq_refl).
Defined.

(** ** Role, history and error handlers *)

(** C7, as stated, fails: the guest is not authenticated and has the
    role Operations; asking for General AI sets it. *)
Lemma general_ai_as_guest_counterexample :
  isAuthenticated guestWorld = false /\
  selectedRole (chatState guestWorld) = Operations /\
  selectedRole (chatState (exec (handleRoleChange GeneralAI) guestWorld)) =
    GeneralAI.
Proof. repeat apply conj; vm_compute; reflexivity. Qed.

(** C7, amended. The handler sets the selected role to the role it is
    given, whichever role of the type it is and whether or not the
    session is authenticated; it sets no error and leaves the messages
    and the loading flag as they were. *)
Theorem role_change_sets_role w r :
  let w' := exec (handleRoleChange r) w in
  selectedRole (chatState w') = r /\
  messages (chatState w') = messages (chatState w) /\
  isLoading (chatState w') = isLoading (chatState w) /\
  error w' = error w /\
  isAuthenticated w' = isAuthenticated w.
Proof.
  destruct w. unfold handleRoleChange, closeSidebarOnMobile, when, exec. cbn.
  destruct (_ <? 768); cbn; auto.
Qed.

(** C8, as stated, fails: the logged-in user's send has failed, and a
    new chat leaves the error where it was. *)
Lemma new_chat_keeps_error_counterexample :
  error memberFailedWorld = Some "network timeout" /\
  option_map error (step memberFailedWorld NewChat) =
    Some (Some "network timeout").
Proof. repeat apply conj; vm_compute; reflexivity. Qed.

(** C8, amended. After a new chat the message sequence is empty, the
    loading flag is false, the selected role is the one from before, no
    conversation is current, and the error is the one from before. *)
Theorem new_chat_resets_conversation w :
  let w' := exec handleNewChat w in
  elems (messages (chatState w')) = [] /\
  isLoading (chatState w') = false /\
  selectedRole (chatState w') = selectedRole (chatState w) /\
  currentChatId w' = None /\
  error w' = error w.
Proof.
  destruct w. unfold handleNewChat, closeSidebarOnMobile, when, exec. cbn.
  destruct (_ <? 768); cbn; auto.
Qed.

(** C9, as stated, fails: the logged-in user's send has failed, and
    loading a stored conversation leaves the error where it was. *)
Lemma load_chat_keeps_error_counterexample :
  error memberFailedWorld = Some "network timeout" /\
  option_map error (step memberFailedWorld (LoadChat storedChat)) =
    Some (Some "network timeout").
Proof. repeat apply conj; vm_compute; reflexivity. Qed.

(** C9, amended. Loading a record makes the record's message array the
    message sequence and the record's role the selected role, sets the
    loading flag false and makes the record the current conversation;
    the error is the one from before. *)
Theorem load_chat_replaces_conversation w history :
  let w' := exec (handleLoadChat history) w in
  messages (chatState w') = ChatHistory.messages history /\
  selectedRole (chatState w') = ChatHistory.role history /\
  isLoading (chatState w') = false /\
  currentChatId w' = Some (ChatHistory.id history) /\
  error w' = error w.
Proof.
  destruct w. unfold handleLoadChat, closeSidebarOnMobile, when, exec. cbn.
  destruct (_ <? 768); cbn; auto.
Qed.

(** C10. [clearError] sets the error to null whatever it was, the
    configuration error included, and changes nothing else; for the
    configuration error the banner is given no retry callback, which is
    the only place the component hands [clearError] out. *)
Theorem clearError_clears_any_error w :
  exec clearError w =
    mkWorld (showLogin w) (showAuth w) (chatState w) None (sidebarOpen w)
      (showLogoutConfirm w) (isAuthenticated w) (currentChatId w)
      (saveChatHistoryRef w) (innerWidth w) (nextRef w) (inflight w)
      (saved w) (authDeps w) (saveDeps w) /\
  error (exec clearError w) = None /\
  messages (chatState (exec clearError w)) = messages (chatState w) /\
  isLoading (chatState (exec clearError w)) = isLoading (chatState w) /\
  selectedRole (chatState (exec clearError w)) = selectedRole (chatState w) /\
  currentChatId (exec clearError w) = currentChatId w /\
  error (exec clearError (exec (setError (Some CONFIG_ERROR)) w)) = None /\
  onRetry (exec (setError (Some CONFIG_ERROR)) w) = None.
Proof. repeat apply conj; reflexivity. Qed.

(** * Further properties of the handlers and effects *)

Lemma onRetry_some w h : onRetry w = Some h -> h = clearError.
Proof.
  unfold onRetry. destruct (error w) as [e|]; [|discriminate].
  destruct (truthy (Some e)); [|discriminate].
  destruct (includes e "GEMINI_API_KEY"); [discriminate|].
  intros H. injection H as <-. reflexivity.
Qed.

(** Which callback an enabled event reaches, and what enabling it took. *)
Lemma handler_cases w ev h :
  handler w ev = Some h ->
  match ev with
  | Login => h = handleLogin /\ screen w = LoginScreen
  | GuestAccess => h = handleGuestAccess /\ screen w = LoginScreen
  | AuthComplete => h = handleAuthComplete /\ screen w = AuthScreen
  | Send content clk => h = handleSendMessage content clk
  | Settle i o clk =>
      h = (setInflight (removeAt i (inflight w)) ;;
           handleSendMessage_settled o clk) /\
      (i < List.length (inflight w))%nat
  | RoleChange r => h = handleRoleChange r
  | LoadChat history => h = handleLoadChat history
  | NewChat => h = handleNewChat
  | Retry => h = clearError
  | AskLogout => h = setShowLogoutConfirm true
  | CancelLogout => h = setShowLogoutConfirm false
  | Logout => h = handleLogout
  | Sidebar open => h = setSidebarOpen open
  | Resize width => h = onResize width
  | AuthChanged auth => h = setIsAuthenticated auth
  | SaveChanged saveRef => h = setSaveChatHistoryRef saveRef
  end.
Proof.
  intros Hh.
  destruct ev; unfold handler, onChat in Hh;
    try (destruct (screen w) eqn:Hs; try discriminate);
    try (destruct (isAuthenticated w); cbn [andb] in Hh; try discriminate);
    try (destruct (showLogoutConfirm w); cbn [andb] in Hh; try discriminate);
    try (apply onRetry_some in Hh; exact Hh);
    try (destruct (Nat.ltb_spec i (List.length (inflight w)));
         [|discriminate]);
    try (split; [|first [assumption | reflexivity]]);
    injection Hh as <-; reflexivity.
Qed.

Lemma step_inv w ev w' :
  step w ev = Some w' ->
  exists h, handler w ev = Some h /\ w' = exec commit (exec h w).
Proof.
  unfold step. destruct (handler w ev) as [h|]; [|discriminate].
  intros H. exists h. split; [reflexivity|].
  rewrite <- exec_seq. injection H; auto.
Qed.

(** What a commit leaves as it was: everything but the two screen
    flags, the saves and the remembered dependency lists. *)
Lemma commit_frame v :
  chatState (exec commit v) = chatState v /\
  error (exec commit v) = error v /\
  inflight (exec commit v) = inflight v /\
  isAuthenticated (exec commit v) = isAuthenticated v /\
  currentChatId (exec commit v) = currentChatId v /\
  sidebarOpen (exec commit v) = sidebarOpen v /\
  showLogoutConfirm (exec commit v) = showLogoutConfirm v /\
  saveChatHistoryRef (exec commit v) = saveChatHistoryRef v.
Proof.
  destruct v. run_handler; repeat split; reflexivity.
Qed.

Ltac step_cases H :=
  let h := fresh "h" in
  let Hh := fresh "Hh" in
  apply step_inv in H; destruct H as (h & Hh & ->);
  apply handler_cases in Hh;
  match type of Hh with
  | match ?ev with _ => _ end => destruct ev
  end;
  repeat match type of Hh with
         | _ /\ _ => let K := fresh "Hen" in destruct Hh as [Hh K]
         end;
  subst h.

Ltac crunch :=
  unfold exec; cbn;
  repeat first
    [ progress (unfold when; cbn)
    | match goal with
      | |- context [if ?b then _ else _] => destruct b eqn:?; cbn
      end ].

Lemma step_grows_by_one w ev w' :
  step w ev = Some w' ->
  replacesConversation ev = false ->
  exists l,
    elems (messages (chatState w')) = elems (messages (chatState w)) ++ l /\
    (List.length l <= 1)%nat.
Proof.
  intros Hs Hr. step_cases Hs; try discriminate;
    match goal with
    | |- context [exec commit ?v] => destruct (commit_frame v) as (-> & _)
    end;
    try (match goal with o : Outcome |- _ => destruct o end);
    destruct w; crunch;
    first [ exists []; rewrite app_nil_r; split; [reflexivity | cbn; lia]
          | eexists; split; [reflexivity | cbn; lia] ].
Qed.

(** X1. Across any events other than new chat, load chat and logout the
    message sequence only grows at its end, by at most one message per
    event. *)
Theorem messages_only_grow evs : forall w w',
  run w evs = Some w' ->
  existsb replacesConversation evs = false ->
  exists l,
    elems (messages (chatState w')) = elems (messages (chatState w)) ++ l /\
    (List.length l <= List.length evs)%nat.
Proof.
  induction evs as [|ev rest IH]; intros w w' Hr Hn; cbn in Hr.
  - injection Hr as <-. exists []. rewrite app_nil_r. split; [reflexivity|cbn; lia].
  - cbn in Hn. apply orb_false_iff in Hn as [Hev Hrest].
    destruct (step w ev) as [w1|] eqn:Hs; [|discriminate].
    destruct (step_grows_by_one _ _ _ Hs Hev) as (l1 & E1 & L1).
    destruct (IH _ _ Hr Hrest) as (l2 & E2 & L2).
    exists (l1 ++ l2). rewrite E2, E1, app_assoc. split; [reflexivity|].
    rewrite length_app. cbn. lia.
Qed.

Lemma messages_only_grow_witness :
  exists l,
    elems (messages (chatState
      (after guestWorld [Send "q" t1; RoleChange Maintenance;
                         Settle 0 (Fulfilled "r") t2]))) =
    elems (messages (chatState guestWorld)) ++ l /\
    (List.length l <= 3)%nat.
Proof.
  exact (messages_only_grow
           [Send "q" t1; RoleChange Maintenance; Settle 0 (Fulfilled "r") t2]
           guestWorld _ eq_refl eq_refl).
Defined.

Lemma step_keeps_error w ev w' :
  step w ev = Some w' -> writesError ev = false -> error w' = error w.
Proof.
  intros Hs Hr. step_cases Hs; try discriminate;
    match goal with
    | |- context [exec commit ?v] => destruct (commit_frame v) as (_ & -> & _)
    end;
    try (match goal with o : Outcome |- _ => destruct o; try discriminate end);
    destruct w; crunch; reflexivity.
Qed.

(** X2. The error cell is written only by the [catch] block of a send
    and by the retry callback: across any other events, logout and new
    chat included, the current error stays what it was. *)
Theorem error_survives_other_events evs : forall w w',
  run w evs = Some w' ->
  existsb writesError evs = false ->
  error w' = error w.
Proof.
  induction evs as [|ev rest IH]; intros w w' Hr Hn; cbn in Hr.
  - injection Hr as <-. reflexivity.
  - cbn in Hn. apply orb_false_iff in Hn as [Hev Hrest].
    destruct (step w ev) as [w1|] eqn:Hs; [|discriminate].
    rewrite (IH _ _ Hr Hrest). eapply step_keeps_error; eassumption.
Qed.

Lemma error_survives_witness :
  error (after memberFailedWorld
           [NewChat; AskLogout; Logout; AuthChanged true]) =
  error memberFailedWorld.
Proof.
  exact (error_survives_other_events
           [NewChat; AskLogout; Logout; AuthChanged true]
           memberFailedWorld _ eq_refl eq_refl).
Defined.

Lemma step_loading w ev w' :
  (isLoading (chatState w) = true -> inflight w <> []) ->
  step w ev = Some w' ->
  isLoading (chatState w') = true -> inflight w' <> [].
Proof.
  intros Hi Hs. step_cases Hs;
    match goal with
    | |- context [exec commit ?v] =>
        destruct (commit_frame v) as (-> & _ & -> & _)
    end;
    try (match goal with o : Outcome |- _ => destruct o end);
    destruct w; cbn in Hi; crunch;
    try discriminate; try assumption;
    try (intros _; apply not_eq_sym, app_cons_not_nil).
Qed.

(** X3. In every world the mounted component can reach, a loading flag
    that is true has a call in flight behind it. *)
Theorem loading_has_call_in_flight key auth saveRef width evs w :
  run (mounted key auth saveRef width) evs = Some w ->
  isLoading (chatState w) = true ->
  inflight w <> [].
Proof.
  assert (G : forall evs v v',
    (isLoading (chatState v) = true -> inflight v <> []) ->
    run v evs = Some v' ->
    isLoading (chatState v') = true -> inflight v' <> []).
  { clear. induction evs as [|ev rest IH]; intros v v' Hi Hr; cbn in Hr.
    - injection Hr as <-. exact Hi.
    - destruct (step v ev) as [v1|] eqn:Hs; [|discriminate].
      eapply IH; [|exact Hr]. eapply step_loading; eassumption. }
  apply G.
  unfold mounted, mount, apiKeyEffect.
  destruct (truthy key), auth; cbn; discriminate.
Qed.

Lemma loading_has_call_witness : inflight loadingWorld <> [].
Proof.
  refine (loading_has_call_in_flight (Some "key") false 0%nat 1280
            [GuestAccess; Send "first" t1] loadingWorld _ eq_refl).
  vm_compute. reflexivity.
Defined.

Lemma step_singleFlight w ev w' :
  singleFlight w ->
  step w ev = Some w' ->
  match ev with
  | Send _ _ => chatInputIsLoading w = false
  | _ => replacesConversation ev = false
  end ->
  singleFlight w'.
Proof.
  unfold singleFlight, chatInputIsLoading.
  intros [Hl Hi] Hs Hg. step_cases Hs; try discriminate;
    match goal with
    | |- context [exec commit ?v] =>
        destruct (commit_frame v) as (-> & _ & -> & _)
    end;
    try (match goal with o : Outcome |- _ => destruct o end);
    destruct w as [sl sa cs er so lc au ci sr iw nr fl sv ad sd];
    cbn in Hl, Hi, Hg; try (cbn in Hen);
    try (apply orb_false_iff in Hg as [Hg1 Hg2]);
    crunch; try (split; assumption); try congruence.
  - (* an unblocked send from an idle input *)
    destruct Hi as [-> | Hi]; [|congruence]. cbn. split; [lia | now right].
  - destruct Hi as [-> | Hi]; [|congruence]. cbn. split; [lia | now right].
  - (* a fulfilled call *)
    destruct fl as [|r [|r' fl]]; cbn in Hl, Hen; try lia.
    destruct i; [|lia]. cbn. split; [lia | now left].
  - (* a rejected call *)
    destruct fl as [|r [|r' fl]]; cbn in Hl, Hen; try lia.
    destruct i; [|lia]. cbn. split; [lia | now left].
Qed.

(** X4. If the input never sends while its loading prop is true and the
    conversation is not replaced (no new chat, load chat or logout),
    the mounted component never has more than one call in flight. *)
Theorem honoured_input_is_single_flight key auth saveRef width evs w :
  run (mounted key auth saveRef width) evs = Some w ->
  inputHonoured (mounted key auth saveRef width) evs = true ->
  (List.length (inflight w) <= 1)%nat.
Proof.
  assert (G : forall evs v v',
    singleFlight v -> run v evs = Some v' -> inputHonoured v evs = true ->
    singleFlight v').
  { clear. induction evs as [|ev rest IH]; intros v v' Hi Hr Hg; cbn in Hr.
    - injection Hr as <-. exact Hi.
    - cbn in Hg. destruct (step v ev) as [v1|] eqn:Hs; [|discriminate].
      apply andb_true_iff in Hg as [Hev Hrest].
      eapply IH; [|exact Hr|exact Hrest].
      eapply step_singleFlight; [exact Hi|exact Hs|].
      destruct ev; cbn in Hev |- *;
        first [ apply negb_true_iff; exact Hev | reflexivity | discriminate ]. }
  intros Hr Hg. eapply G; [|exact Hr|exact Hg].
  unfold mounted, mount, apiKeyEffect, singleFlight.
  destruct (truthy key), auth; cbn; split; auto.
Qed.

Lemma honoured_input_witness :
  (List.length (inflight
     (after guestWorld
        [Send "a" t1; Settle 0 (Fulfilled "b") t2; Send "c" t2])) <= 1)%nat.
Proof.
  refine (honoured_input_is_single_flight (Some "key") false 0%nat 1280
            [GuestAccess; Send "a" t1; Settle 0 (Fulfilled "b") t2; Send "c" t2]
            _ _ eq_refl).
  vm_compute. reflexivity.
Defined.

(** X5. A new chat while a call is in flight lowers the loading flag
    with the call still outstanding: the input is no longer told it is
    loading, and the next send puts a second call in flight. *)
Theorem new_chat_reopens_input_during_call w content clk content' clk' :
  truthy (error w) = false ->
  let w1 := exec handleNewChat (exec (handleSendMessage content clk) w) in
  chatInputIsLoading w1 = false /\
  inflight w1 = inflight w ++ [mkRequest content (selectedRole (chatState w))] /\
  inflight (exec (handleSendMessage content' clk') w1) =
    inflight w ++ [mkRequest content (selectedRole (chatState w));
                   mkRequest content' (selectedRole (chatState w))].
Proof.
  intros He w1. subst w1.
  rewrite (handleSendMessage_open _ _ _ He).
  destruct w as [sl sa cs er so lc au ci sr iw nr fl sv ad sd].
  cbn in He. unfold chatInputIsLoading.
  unfold exec, handleNewChat, handleSendMessage, closeSidebarOnMobile, when.
  cbn -[truthy Z.ltb].
  destruct (iw <? 768) eqn:Hw; cbn -[truthy Z.ltb]; rewrite ?He;
    cbn -[Z.ltb]; rewrite ?Hw; cbn;
    repeat apply conj; rewrite <- ?app_assoc; reflexivity.
Qed.

Lemma new_chat_reopens_witness :
  List.length (inflight
    (exec (handleSendMessage "second" t2)
       (exec handleNewChat (exec (handleSendMessage "first" t1) memberWorld))))
  = 2%nat.
Proof.
  exact (f_equal (@List.length _)
    (proj2 (proj2 (new_chat_reopens_input_during_call memberWorld
                     "first" t1 "second" t2 eq_refl)))).
Defined.

(** The saves a commit adds. *)
Lemma commit_saved v :
  saved (exec commit v) =
    saved v ++
      (if saveDepsChanged v &&
          (isAuthenticated v &&
           completeExchange
             (Saved.mk (messages (chatState v)) (selectedRole (chatState v))))
       then [Saved.mk (messages (chatState v)) (selectedRole (chatState v))]
       else []).
Proof.
  destruct v as [sl sa cs er so lc au ci sr iw nr fl sv ad sd].
  unfold exec, commit, authEffect, authEffectBody, autoSaveEffect,
    autoSaveBody, saveDepsChanged, completeExchange, when.
  cbn -[Nat.leb hasUserMessage hasAIResponse sameDeps].
  destruct ad as [[|]|], au, sd as [d|]; quiet_cbn; split_policy;
    rewrite ?app_nil_r; reflexivity.
Qed.

(** X6. No staleness check: a response that arrives after a new chat,
    or after a logout, becomes the only message of the fresh
    conversation, an assistant message with no user message before it;
    the commit that follows makes no save of it. *)
Theorem late_response_lands_in_fresh_conversation w text clk :
  let late := handleSendMessage_settled (Fulfilled text) clk in
  let w1 := exec late (exec handleNewChat w) in
  let w2 := exec late (exec handleLogout w) in
  elems (messages (chatState w1)) = [assistantMessage text clk] /\
  elems (messages (chatState w2)) = [assistantMessage text clk] /\
  isLoading (chatState w1) = false /\
  isLoading (chatState w2) = false /\
  saved (exec commit w1) = saved w /\
  saved (exec commit w2) = saved w.
Proof.
  intros late w1 w2. subst late w1 w2.
  rewrite !commit_saved. unfold completeExchange.
  destruct w as [sl sa cs er so lc au ci sr iw nr fl sv ad sd].
  unfold exec, handleNewChat, handleLogout, logout, closeSidebarOnMobile, when.
  cbn -[saveDepsChanged]. destruct (iw <? 768); cbn -[saveDepsChanged];
    rewrite !andb_false_r, !app_nil_r; repeat apply conj; reflexivity.
Qed.

Lemma handler_keeps_saved w ev h :
  handler w ev = Some h -> saved (exec h w) = saved w.
Proof.
  intros Hh. apply handler_cases in Hh.
  destruct ev;
    repeat match type of Hh with
           | _ /\ _ => let K := fresh "Hen" in destruct Hh as [Hh K]
           end;
    subst h;
    try (match goal with o : Outcome |- _ => destruct o end);
    destruct w; crunch; reflexivity.
Qed.

Lemma step_saves_complete w ev w' :
  Forall (fun p => completeExchange p = true) (saved w) ->
  step w ev = Some w' ->
  Forall (fun p => completeExchange p = true) (saved w').
Proof.
  intros Hf Hs. apply step_inv in Hs as (h & Hh & ->).
  rewrite commit_saved, (handler_keeps_saved _ _ _ Hh).
  apply Forall_app. split; [exact Hf|].
  destruct (saveDepsChanged _); cbn; [|constructor].
  destruct (isAuthenticated _); cbn; [|constructor].
  destruct (completeExchange _) eqn:Hc; constructor; [exact Hc|constructor].
Qed.

(** X7. Every payload the mounted component ever hands to
    [saveChatHistory] has at least two messages, one of them from the
    user and one from the assistant. *)
Theorem saves_are_complete_exchanges key auth saveRef width evs w :
  run (mounted key auth saveRef width) evs = Some w ->
  Forall (fun p =>
            (2 <= List.length (elems (Saved.messages p)))%nat /\
            hasUserMessage (elems (Saved.messages p)) = true /\
            hasAIResponse (elems (Saved.messages p)) = true)
         (saved w).
Proof.
  assert (G : forall evs v v',
    Forall (fun p => completeExchange p = true) (saved v) ->
    run v evs = Some v' ->
    Forall (fun p => completeExchange p = true) (saved v')).
  { clear. induction evs as [|ev rest IH]; intros v v' Hf Hr; cbn in Hr.
    - injection Hr as <-. exact Hf.
    - destruct (step v ev) as [v1|] eqn:Hs; [|discriminate].
      eapply IH; [|exact Hr]. eapply step_saves_complete; eassumption. }
  intros Hr.
  assert (H0 : Forall (fun p => completeExchange p = true)
                 (saved (mounted key auth saveRef width))).
  { unfold mounted, mount, apiKeyEffect.
    destruct (truthy key), auth; cbn; constructor. }
  pose proof (G _ _ _ H0 Hr) as Hf.
  eapply Forall_impl; [|exact Hf].
  intros p Hp. unfold completeExchange in Hp.
  apply andb_true_iff in Hp as [Hl Hp].
  apply andb_true_iff in Hp as [Hu Ha].
  apply Nat.leb_le in Hl. auto.
Qed.

Lemma saves_are_complete_witness :
  Forall (fun p =>
            (2 <= List.length (elems (Saved.messages p)))%nat /\
            hasUserMessage (elems (Saved.messages p)) = true /\
            hasAIResponse (elems (Saved.messages p)) = true)
    (saved (after memberWorld
              [Send "q" t1; Settle 0 (Fulfilled "r") t2;
               RoleChange Maintenance])).
Proof.
  refine (saves_are_complete_exchanges (Some "key") true 0%nat 1280
            [Send "q" t1; Settle 0 (Fulfilled "r") t2; RoleChange Maintenance]
            _ _).
  vm_compute. reflexivity.
Defined.

(** X8. A call that fails makes no save: once the effects of the last
    render have run, the commit after the [catch] block leaves the save
    log as it was, whatever the conversation holds. *)
Theorem failed_call_makes_no_save w i err clk w' :
  saveDepsChanged w = false ->
  step w (Settle i (Rejected err) clk) = Some w' ->
  saved w' = saved w.
Proof.
  intros Hq Hs. apply step_inv in Hs as (h & Hh & ->).
  apply handler_cases in Hh. hnf in Hh. destruct Hh as [-> _].
  rewrite commit_saved.
  assert (E : saveDepsChanged
                (exec (setInflight (removeAt i (inflight w)) ;;
                       handleSendMessage_settled (Rejected err) clk) w) =
              saveDepsChanged w).
  { destruct w; reflexivity. }
  rewrite E, Hq. cbn [andb]. rewrite app_nil_r.
  destruct w; reflexivity.
Qed.

Lemma failed_call_makes_no_save_witness :
  saved (after memberWorld
           [Send "q" t1; Settle 0 (Fulfilled "r") t2; Send "again" t2;
            Settle 0 (Rejected (ErrorObject "network timeout")) t2]) =
  saved (after memberWorld
           [Send "q" t1; Settle 0 (Fulfilled "r") t2; Send "again" t2]).
Proof.
  refine (failed_call_makes_no_save
            (after memberWorld
               [Send "q" t1; Settle 0 (Fulfilled "r") t2; Send "again" t2])
            0%nat (ErrorObject "network timeout") t2 _ eq_refl _).
  vm_compute. reflexivity.
Defined.

(** X9. A guest's conversation is saved at the moment the session
    becomes authenticated: when the effects are up to date and the
    conversation holds a complete exchange, the change of the
    authentication flag alone makes one save of the current messages
    and role. *)
Theorem guest_conversation_saved_on_login w :
  saveDeps w = Some (currentSaveDeps w) ->
  isAuthenticated w = false ->
  completeExchange
    (Saved.mk (messages (chatState w)) (selectedRole (chatState w))) = true ->
  exists w',
    step w (AuthChanged true) = Some w' /\
    saved w' =
      saved w ++ [Saved.mk (messages (chatState w)) (selectedRole (chatState w))].
Proof.
  intros Hd Ha Hc. eexists. split; [reflexivity|].
  rewrite exec_seq, commit_saved.
  destruct w as [sl sa cs er so lc au ci sr iw nr fl sv ad sd].
  unfold currentSaveDeps in Hd. cbn in Hd, Ha, Hc. subst au sd.
  unfold exec, saveDepsChanged, currentSaveDeps, sameDeps.
  cbn -[completeExchange Nat.eqb].
  rewrite Nat.eqb_refl, Hc. reflexivity.
Qed.

Lemma guest_conversation_saved_witness :
  exists w',
    step (after guestWorld [Send "q" t1; Settle 0 (Fulfilled "r") t2])
      (AuthChanged true) = Some w' /\
    List.length (saved w') = 1%nat.
Proof.
  destruct (guest_conversation_saved_on_login
              (after guestWorld [Send "q" t1; Settle 0 (Fulfilled "r") t2])
              eq_refl eq_refl eq_refl) as (w' & Hs & Hv).
  exists w'. split; [exact Hs|]. rewrite Hv. reflexivity.
Defined.

Lemma commit_auth v :
  authDeps (exec commit v) = Some (isAuthenticated v) /\
  showAuth (exec commit v) =
    (if match authDeps v with
        | Some b => negb (Bool.eqb b (isAuthenticated v))
        | None => true
        end && isAuthenticated v
     then false else showAuth v).
Proof.
  destruct v as [sl sa cs er so lc au ci sr iw nr fl sv [[|]|] sd];
    destruct au; run_handler; split; reflexivity.
Qed.

Lemma step_authSettled w ev w' :
  authSettled w -> step w ev = Some w' -> authSettled w'.
Proof.
  unfold authSettled. intros [Hd Hs] Hstep. step_cases Hstep;
    match goal with
    | |- context [exec commit ?v] =>
        destruct (commit_auth v) as (-> & ->);
        destruct (commit_frame v) as (_ & _ & _ & -> & _)
    end;
    try (match goal with o : Outcome |- _ => destruct o end);
    try (unfold screen in Hen);
    destruct w as [sl sa cs er so lc au ci sr iw nr fl sv ad sd];
    cbn in Hd, Hs; try (cbn in Hen); subst ad;
    crunch; split; try reflexivity; intros Ha;
    try discriminate; try congruence; auto;
    try (destruct au; cbn in *; try discriminate; auto);
    try (apply Hs; reflexivity);
    try (rewrite andb_false_r, (Hs eq_refl) in Hen; discriminate);
    try (subst; discriminate).
Qed.

(** X10. In every world the mounted component reaches once the effects
    of a render have run, an authenticated session is shown the chat
    screen, not the login or the auth screen.  (The render between a
    change of the flag and its effect is not such a world: there the
    auth screen can still show.) *)
Theorem authenticated_session_sees_chat key auth saveRef width evs w :
  run (mounted key auth saveRef width) evs = Some w ->
  isAuthenticated w = true ->
  screen w = ChatScreen.
Proof.
  assert (G : forall evs v v',
    authSettled v -> run v evs = Some v' -> authSettled v').
  { clear. induction evs as [|ev rest IH]; intros v v' Hi Hr; cbn in Hr.
    - injection Hr as <-. exact Hi.
    - destruct (step v ev) as [v1|] eqn:Hs; [|discriminate].
      eapply IH; [|exact Hr]. eapply step_authSettled; eassumption. }
  intros Hr Ha.
  assert (H0 : authSettled (mounted key auth saveRef width)).
  { unfold mounted, mount, apiKeyEffect, authSettled.
    destruct (truthy key), auth; cbn; split; auto. }
  destruct (G _ _ _ H0 Hr) as [_ Hs].
  unfold screen. rewrite Ha, (Hs Ha), andb_false_r. reflexivity.
Qed.

Lemma authenticated_session_witness :
  screen (after guestWorld [AuthChanged true; Sidebar true]) = ChatScreen.
Proof.
  refine (authenticated_session_sees_chat (Some "key") false 0%nat 1280
            [GuestAccess; AuthChanged true; Sidebar true]
            (after guestWorld [AuthChanged true; Sidebar true]) _ eq_refl).
  vm_compute. reflexivity.
Defined.

(** X11. From the login screen both choices end in the chat screen
    without authentication: guest access at once, and the login choice
    through the auth screen as soon as that screen reports completion;
    neither touches the conversation. *)
Theorem login_choices_reach_chat w :
  screen w = LoginScreen ->
  (exists w1,
     run w [GuestAccess] = Some w1 /\
     screen w1 = ChatScreen /\
     isAuthenticated w1 = false /\
     chatState w1 = chatState w) /\
  (exists w2 w3,
     run w [Login] = Some w2 /\
     screen w2 = AuthScreen /\
     run w2 [AuthComplete] = Some w3 /\
     screen w3 = ChatScreen /\
     isAuthenticated w3 = false /\
     chatState w3 = chatState w).
Proof.
  intros Hs.
  assert (Hw : showLogin w = true /\ isAuthenticated w = false).
  { unfold screen in Hs.
    destruct (showLogin w), (isAuthenticated w), (showAuth w);
      cbn in Hs; try discriminate; auto. }
  destruct Hw as [Hl Ha].
  assert (Q : forall v, isAuthenticated v = false ->
            showLogin (exec commit v) = showLogin v /\
            showAuth (exec commit v) = showAuth v /\
            isAuthenticated (exec commit v) = false /\
            chatState (exec commit v) = chatState v).
  { intros v Hv. destruct (commit_frame v) as (-> & _ & _ & -> & _).
    destruct (commit_auth v) as (_ & ->). rewrite Hv, andb_false_r.
    repeat split; auto.
    destruct v as [a b c d e f g h i j k l m [[|]|] o]; cbn in Hv; subst;
      run_handler; reflexivity. }
  assert (Hstep : forall v ev h,
            handler v ev = Some h ->
            run v [ev] = Some (exec commit (exec h v))).
  { intros v ev h Hh. cbn. unfold step. rewrite Hh, exec_seq. reflexivity. }
  assert (Hg : isAuthenticated (exec handleGuestAccess w) = false)
    by (destruct w; exact Ha).
  assert (Hn : isAuthenticated (exec handleLogin w) = false)
    by (destruct w; exact Ha).
  split.
  - exists (exec commit (exec handleGuestAccess w)).
    split; [apply Hstep; unfold handler; rewrite Hs; reflexivity|].
    destruct (Q _ Hg) as (E1 & E2 & E3 & E4).
    unfold screen. rewrite E1, E2, E3, E4.
    destruct w; repeat split.
  - set (w2 := exec commit (exec handleLogin w)).
    exists w2, (exec commit (exec handleAuthComplete w2)).
    destruct (Q _ Hn) as (E1 & E2 & E3 & E4). fold w2 in E1, E2, E3, E4.
    assert (Hscreen : screen w2 = AuthScreen).
    { unfold screen. rewrite E1, E2, E3. destruct w; reflexivity. }
    split; [apply Hstep; unfold handler; rewrite Hs; reflexivity|].
    split; [exact Hscreen|].
    split; [apply Hstep; unfold handler; rewrite Hscreen; reflexivity|].
    assert (Hc : isAuthenticated (exec handleAuthComplete w2) = false)
      by (destruct w2; exact E3).
    destruct (Q _ Hc) as (F1 & F2 & F3 & F4).
    unfold screen. rewrite F1, F2, F3, F4.
    assert (G1 : showLogin (exec handleAuthComplete w2) = showLogin w2)
      by (destruct w2; reflexivity).
    assert (G2 : showAuth (exec handleAuthComplete w2) = false)
      by (destruct w2; reflexivity).
    assert (G3 : chatState (exec handleAuthComplete w2) = chatState w2)
      by (destruct w2; reflexivity).
    rewrite G1, G2, G3, E1, E4.
    destruct w; repeat split.
Qed.

Lemma login_choices_witness :
  exists w1,
    run (mounted (Some "key") false 0 1280) [GuestAccess] = Some w1 /\
    screen w1 = ChatScreen.
Proof.
  destruct (login_choices_reach_chat (mounted (Some "key") false 0 1280) eq_refl)
    as [(w1 & Hr & Hs & _) _].
  exists w1. split; assumption.
Defined.

(** X12. Logout and the commit after it show the login screen with an
    empty idle conversation under the role Operations, no current
    conversation, the confirmation and the sidebar closed; the error,
    the calls in flight and the save log are left as they were. *)
Theorem logout_resets_conversation_only w :
  let w' := exec (handleLogout ;; commit) w in
  screen w' = LoginScreen /\
  elems (messages (chatState w')) = [] /\
  isLoading (chatState w') = false /\
  selectedRole (chatState w') = Operations /\
  uploadedFiles (chatState w') = [] /\
  currentChatId w' = None /\
  showLogoutConfirm w' = false /\
  sidebarOpen w' = false /\
  error w' = error w /\
  inflight w' = inflight w /\
  saved w' = saved w.
Proof.
  intros w'. subst w'. rewrite exec_seq.
  destruct (commit_frame (exec handleLogout w))
    as (Ec & Ee & Ei & Ea & Eid & Es & El & _).
  destruct (commit_auth (exec handleLogout w)) as (_ & Esa).
  rewrite commit_saved. unfold screen, completeExchange.
  rewrite Ec, Ee, Ei, Ea, Eid, Es, El.
  assert (Hl : showLogin (exec commit (exec handleLogout w)) = true).
  { destruct w as [a b c d e f g h i j k l m [[|]|] o];
      run_handler; reflexivity. }
  rewrite Hl.
  destruct w as [sl sa cs er so lc au ci sr iw nr fl sv ad sd].
  cbn -[saveDepsChanged]. rewrite andb_false_r, app_nil_r.
  repeat apply conj; reflexivity.
Qed.

Lemma toString_inj a b : toString a = toString b -> a = b.
Proof.
  unfold toString. intros H.
  apply DecimalZ.to_int_inj.
  assert (N : forall z, Z.to_int z <> Decimal.Pos Decimal.Nil /\
                        Z.to_int z <> Decimal.Neg Decimal.Nil).
  { intros z. destruct z as [|p|p]; cbn; split; try discriminate;
      intros E; injection E as E;
      apply (DecimalPos.Unsigned.to_uint_nonnil p); exact E. }
  pose proof (NilZero.isi (Z.to_int a) (proj1 (N a)) (proj2 (N a))) as Ha.
  pose proof (NilZero.isi (Z.to_int b) (proj1 (N b)) (proj2 (N b))) as Hb.
  rewrite H in Ha. rewrite Ha in Hb. injection Hb as Hb. exact Hb.
Qed.

(** X13. The identifiers [Date.now().toString()] of a user message and
    [(Date.now() + 1).toString()] of an assistant message coincide
    exactly when the user message is made one millisecond after the
    assistant message: never within one round trip on a clock that does
    not run backwards, but possibly for an answer and the next
    question. *)
Theorem message_ids_coincide_iff content clk text clk' :
  Message.id (userMessage content clk) =
    Message.id (assistantMessage text clk') <->
  DateNow clk = DateNow clk' + 1.
Proof.
  unfold userMessage, assistantMessage. cbn [Message.id].
  split.
  - apply toString_inj.
  - intros ->. reflexivity.
Qed.

(** X14. The retry callback of the error banner retries nothing: when
    it is offered, using it clears the error and stops the error from
    disabling the input, but it issues no call and leaves the
    conversation, the failed user message included, as it was. *)
Theorem retry_only_clears w w' :
  step w Retry = Some w' ->
  truthy (error w) = true /\
  error w' = None /\
  inflight w' = inflight w /\
  chatState w' = chatState w /\
  chatInputIsLoading w' = isLoading (chatState w).
Proof.
  intros Hs.
  assert (Ht : truthy (error w) = true).
  { unfold step, handler, onRetry in Hs.
    destruct (onChat w); [|discriminate].
    destruct (error w) as [e|]; [|discriminate].
    destruct (truthy (Some e)); [reflexivity|discriminate]. }
  apply step_inv in Hs as (h & Hh & ->).
  apply handler_cases in Hh. hnf in Hh. subst h.
  unfold chatInputIsLoading.
  destruct (commit_frame (exec clearError w)) as (-> & -> & -> & _).
  destruct w; repeat apply conj; try reflexivity; try exact Ht.
  cbn. apply orb_false_r.
Qed.

Lemma retry_only_clears_witness :
  exists w',
    step failedWorld Retry = Some w' /\
    List.length (elems (messages (chatState w'))) = 1%nat /\
    inflight w' = [].
Proof.
  eexists. split; [reflexivity|].
  destruct (retry_only_clears failedWorld _ eq_refl) as (_ & _ & Hi & Hc & _).
  rewrite Hi, Hc. split; reflexivity.
Defined.

(** X15. Loading a stored conversation in an authenticated session
    writes it straight back: when the effects are up to date and the
    record holds a complete exchange in another array or under another
    role than the current one, the commit after the load saves the
    record's messages and role, with the record already the current
    conversation. *)
Theorem loaded_conversation_is_saved_again w history :
  saveDeps w = Some (currentSaveDeps w) ->
  isAuthenticated w = true ->
  completeExchange
    (Saved.mk (ChatHistory.messages history) (ChatHistory.role history)) = true ->
  ref (ChatHistory.messages history) <> ref (messages (chatState w)) \/
  ChatHistory.role history <> selectedRole (chatState w) ->
  let w' := exec (handleLoadChat history ;; commit) w in
  saved w' =
    saved w ++
      [Saved.mk (ChatHistory.messages history) (ChatHistory.role history)] /\
  currentChatId w' = Some (ChatHistory.id history).
Proof.
  intros Hd Ha Hc Hne w'. subst w'. rewrite exec_seq.
  destruct (commit_frame (exec (handleLoadChat history) w))
    as (_ & _ & _ & _ & -> & _).
  rewrite commit_saved.
  destruct w as [sl sa cs er so lc au ci sr iw nr fl sv ad sd].
  destruct history as [hid hm hr].
  unfold currentSaveDeps in Hd. cbn in Hd, Ha, Hc, Hne. subst au sd.
  assert (Hx : (Nat.eqb (ref (messages cs)) (ref hm) &&
                Role_eqb (selectedRole cs) hr) = false).
  { destruct Hne as [Hr | Hr].
    - apply andb_false_iff. left. apply Nat.eqb_neq. congruence.
    - apply andb_false_iff. right.
      destruct (selectedRole cs), hr; try reflexivity; congruence. }
  unfold exec, handleLoadChat, closeSidebarOnMobile, when, saveDepsChanged,
    currentSaveDeps, sameDeps.
  cbn -[completeExchange Nat.eqb Role_eqb].
  destruct (iw <? 768); cbn -[completeExchange Nat.eqb Role_eqb];
    rewrite Hc;
    apply andb_false_iff in Hx as [Hx | Hx]; rewrite Hx;
    rewrite ?andb_false_r; cbn; split; reflexivity.
Qed.

Lemma loaded_conversation_witness :
  saved (exec (handleLoadChat storedChat ;; commit) memberWorld) =
  [Saved.mk firstExchange Maintenance].
Proof.
  exact (proj1 (loaded_conversation_is_saved_again memberWorld storedChat
                  eq_refl eq_refl eq_refl
                  (or_intror (fun E : Maintenance = Operations =>
                     eq_ind Maintenance
                       (fun r => match r with Maintenance => True | _ => False end)
                       I Operations E)))).
Defined.
